(** * Incremental table replication: watermark read, change fetch, staged upsert

    A shallow embedding of [upsert_data.py], [get_new_data.py] and
    [process_tables.py].  The Python functions drive a relational store
    through SQLAlchemy 2 ([from sqlalchemy import Engine]); here the store
    is an explicit value that the functions thread, the statements they
    template are terms of type [statement], and an [Engine] says what
    executing a statement does.

    The Python control flow is embedded once, over an arbitrary [Engine]:
    the connections that are closed without a commit, [begin] / [commit] /
    [rollback], the loop over the result rows, the string subscripts on
    result rows.  [sql_execute] is the store the modules are written for,
    SQL Server. *)

From stdpp Require Import gmap strings list fin_maps.
From Stdlib Require Import ZArith.

(** ** Cells, rows, tables *)

(** A cell is SQL NULL / Python [None], or a scalar.  Scalars are kept as
    integers: the code only ever compares cells ([=] in the MERGE join,
    [>] in the change query, [MAX] in the watermark query), and a
    [datetime] is its tick count since [datetime.min]. *)
Inductive value :=
| Null
| Val (z : Z).

#[global] Instance value_eq_dec : EqDecision value.
Proof. solve_decision. Defined.

(** A row is a Python [dict] / a table row: column names with their cells,
    in column order. *)
Definition row := list (string * value).

(** [dict.get]: the cell stored under [c], if any. *)
Fixpoint cell (c : string) (r : row) : option value :=
  match r with
  | [] => None
  | (k, v) :: r' => if String.eqb k c then Some v else cell c r'
  end.

(** A column read the way SQL reads it: an absent cell is NULL. *)
Definition field (c : string) (r : row) : value := default Null (cell c r).

Record table := { columns : list string; rows : list row }.

(** The store: tables addressed by (schema, name), exactly as the
    identifiers are spelled in the statement text. *)
Abbreviation database := (gmap (string * string) table).

Definition datetime := Z.

(** [datetime.min] *)
Definition datetime_min : datetime := 0%Z.

(** ** Exceptions and the state-and-error monad *)

Inductive exception :=
| Exc (type message : string)
| ExcFrom (type message : string) (cause : exception).

Definition exc_type (e : exception) : string :=
  match e with
  | Exc t _ => t
  | ExcFrom t _ _ => t
  end.

(** A computation on the store: it ends in a value or in a raised
    exception, and in either case leaves a store behind. *)
Definition run (A : Type) : Type := database → (exception + A) * database.

Definition ret {A} (a : A) : run A := λ db, (inr a, db).

Definition raise {A} (e : exception) : run A := λ db, (inl e, db).

Definition bind {A B} (m : run A) (k : A → run B) : run B :=
  λ db, match m db with
        | (inl e, db') => (inl e, db')
        | (inr a, db') => k a db'
        end.

Notation "'let*' x := m 'in' k" := (bind m (λ x, k))
  (at level 10, x name, m at level 200, k at level 200).

(** ** Statements and engines *)

(** The statements the three modules template.  Each constructor carries
    the identifiers and column lists that the f-string interpolates. *)
Inductive statement :=
| CreateIfMissing (staging_schema staging_table target_schema target_table : string)
    (* IF OBJECT_ID(N'ss.st', 'U') IS NULL
       BEGIN SELECT TOP 0 * INTO ss.st FROM ts.tt; END *)
| TruncateTable (schema name : string)
    (* TRUNCATE TABLE schema.name; *)
| InsertValues (schema name : string) (cols : list string)
    (* INSERT INTO schema.name (cols) VALUES (:cols); *)
| MergeScript (target_schema target_table source_schema source_table : string)
    (on_cols set_cols insert_cols : list string)
    (* DECLARE @inserted INT = 0; DECLARE @updated INT = 0;
       MERGE INTO ts.tt AS target USING ss.st AS source
       ON target.k = source.k AND ...
       WHEN MATCHED THEN
           UPDATE SET target.c = source.c, ...
           WHEN MATCHED THEN UPDATE SET @updated += 1
       WHEN NOT MATCHED BY TARGET THEN
           INSERT (cols) VALUES (source.cols)
           OUTPUT $action INTO @inserted;
       SELECT @inserted AS RowsInserted, @updated AS RowsUpdated; *)
| SelectMax (col alias schema name : string)
    (* SELECT MAX(col) as alias FROM schema.name *)
| SelectWhereGreater (schema name col param : string).
    (* SELECT * FROM schema.name WHERE col > :param *)

(** What [connection.execute(text(q), params)] does: fail with an
    exception, or change the store as the connection sees it and hand
    back the result rows.  A failed statement changes nothing. *)
Definition Engine : Type :=
  statement → list row → database → exception + (database * list row).

Definition exec (engine : Engine) (q : statement) (params : list row)
  : run (list row) :=
  λ db, match engine q params db with
        | inl e => (inl e, db)
        | inr (db', result) => (inr result, db')
        end.

(** [with engine.connect() as connection: body], where [body] never
    commits: a SQLAlchemy 2 connection begins a transaction at its first
    [execute], and closing the connection rolls that transaction back.
    What [body] did to the store is gone when the block is left. *)
Definition uncommitted {A} (body : run A) : run A :=
  λ db, ((body db).1, db).

(** [trans = connection.begin(); try: body; trans.commit()
     except Exception as e: trans.rollback(); raise e] *)
Definition transaction {A} (body : run A) : run A :=
  λ db, match body db with
        | (inr a, db') => (inr a, db')
        | (inl e, _) => (inl e, db)
        end.

(** The [TypeError] of a string subscript on a tuple. *)
Definition Row_subscript_error : exception :=
  Exc "TypeError" "tuple indices must be integers or slices, not str".

(** [row["name"]] on a [Row], which is what iterating a result and
    [fetchone] hand back.  A SQLAlchemy 2 [Row] is a named tuple: it is
    indexed by position, and a string subscript raises [TypeError]
    whatever columns the row has. *)
Definition subscript (r : row) (name : string) : exception + value :=
  inl Row_subscript_error.

(** The [TypeError] of [dict] on a sequence whose first element is not a
    key/value pair. *)
Definition dict_error : exception :=
  Exc "TypeError"
      "cannot convert dictionary update sequence element #0 to a sequence".

(** [dict(row)] on a [Row]: [dict] reads the row as a sequence of
    key/value pairs, and a cell (a number, a datetime, [None]) is not a
    pair.  Only a row without cells converts, to the empty dict. *)
Definition dict_of_row (r : row) : exception + row :=
  match r with
  | [] => inr []
  | _ :: _ => inl dict_error
  end.

(** [[dict(row) for row in result]] *)
Fixpoint dicts_of_rows (result : list row) : exception + list row :=
  match result with
  | [] => inr []
  | r :: result' =>
      match dict_of_row r with
      | inl e => inl e
      | inr d =>
          match dicts_of_rows result' with
          | inl e => inl e
          | inr ds => inr (d :: ds)
          end
      end
  end.

Definition lift {A} (r : exception + A) : run A :=
  match r with
  | inl e => raise e
  | inr a => ret a
  end.

(** ** upsert_data.py *)

Record UpsertResult := { rows_inserted : value; rows_updated : value }.

(** A Polars frame: ordered column names and rectangular data. *)
Record DataFrame := { df_columns : list string; df_rows : list (list value) }.

Fixpoint zip_cells (cols : list string) (vs : list value) : row :=
  match cols with
  | [] => []
  | c :: cols' => (c, hd Null vs) :: zip_cells cols' (tl vs)
  end.

(** [dataframe.to_dicts()]: one dict per row, keyed by every column. *)
Definition to_dicts (df : DataFrame) : list row :=
  map (zip_cells (df_columns df)) (df_rows df).

(** [pl.DataFrame(rows)] for a list of dicts. *)
Definition DataFrame_of_dicts (dicts : list row) : DataFrame :=
  let cols := match dicts with [] => [] | d :: _ => map fst d end in
  {| df_columns := cols;
     df_rows := map (λ d, map (λ c, field c d) cols) dicts |}.

(** The check runs on a connection of its own, which is closed without a
    commit. *)
Definition create_staging_table_if_not_exists (engine : Engine)
    (target_schema target_table staging_schema staging_table : string)
  : run unit :=
  let check_query :=
    CreateIfMissing staging_schema staging_table target_schema target_table in
  uncommitted (
    let* _ := exec engine check_query [] in
    ret tt).

(** [for row in result: rows_inserted = row["RowsInserted"];
     rows_updated = row["RowsUpdated"]] *)
Fixpoint read_counts (result : list row) (counts : UpsertResult)
  : exception + UpsertResult :=
  match result with
  | [] => inr counts
  | r :: result' =>
      match subscript r "RowsInserted" with
      | inl e => inl e
      | inr ri =>
          match subscript r "RowsUpdated" with
          | inl e => inl e
          | inr ru =>
              read_counts result' {| rows_inserted := ri; rows_updated := ru |}
          end
      end
  end.

Definition staging_name (schema_name table_name : string) : string :=
  "[" +:+ schema_name +:+ "_" +:+ table_name +:+ "]".

Definition merge_query (schema_name table_name staging_table_full_name : string)
    (columns key_columns : list string) : statement :=
  MergeScript schema_name table_name "staging" staging_table_full_name
    key_columns
    (List.filter (λ col, negb (bool_decide (col ∈ key_columns))) columns)
    columns.

Definition upsert_data (engine : Engine) (dataframe : DataFrame)
    (schema_name table_name : string) (key_columns : list string)
  : run UpsertResult :=
  let data := to_dicts dataframe in
  let columns := df_columns dataframe in
  let staging_table_full_name := staging_name schema_name table_name in
  let* _ := create_staging_table_if_not_exists engine
        schema_name table_name "staging" staging_table_full_name in
  let counts := {| rows_inserted := Val 0; rows_updated := Val 0 |} in
  transaction (
    let* _ := exec engine (TruncateTable "staging" staging_table_full_name) [] in
    let* _ := exec engine (InsertValues "staging" staging_table_full_name columns) data in
    let* result := exec engine
        (merge_query schema_name table_name staging_table_full_name
           columns key_columns) [] in
    lift (read_counts result counts)).

(** ** get_new_data.py *)

Definition get_new_data (engine : Engine)
    (schema_name table_name last_modified_column : string)
    (last_run_datetime : datetime) : run DataFrame :=
  let query :=
    SelectWhereGreater schema_name table_name last_modified_column
      "last_run_datetime" in
  uncommitted (
    let* result := exec engine query [[("last_run_datetime", Val last_run_datetime)]] in
    let* rows := lift (dicts_of_rows result) in
    ret (DataFrame_of_dicts rows)).

(** ** process_tables.py *)

(** [result["last_run_datetime"] if result else None], where [result] is
    [fetchone()]: the first result row, or [None] when there is none.  A
    row is falsy only when it has no columns. *)
Definition get_last_run_datetime (engine : Engine)
    (schema_name table_name : string) : run (option datetime) :=
  let query := SelectMax "last_run_datetime" "last_run_datetime"
                 schema_name table_name in
  uncommitted (
    let* result := exec engine query [] in
    match result with
    | [] => ret None
    | [] :: _ => ret None
    | r :: _ =>
        match subscript r "last_run_datetime" with
        | inl e => raise e
        | inr Null => ret None
        | inr (Val t) => ret (Some t)
        end
    end).

(** Lines 74-82 of [process_tables]: the watermark handed to the change
    fetch. *)
Definition process_tables_watermark (target_engine : Engine)
    (schema_name table_name : string) : run datetime :=
  let quoted_schema_name := "[" +:+ schema_name +:+ "]" in
  let quoted_table_name := "[" +:+ table_name +:+ "]" in
  let* last_run_datetime := get_last_run_datetime target_engine
       quoted_schema_name quoted_table_name in
  match last_run_datetime with
  | None => ret datetime_min
  | Some t => ret t
  end.

(** ** The relational engine

    [sql_execute] is SQL Server as the three modules reach it.  A
    statement fails when it names a table or a column that does not
    exist, when its text is not a well-formed statement, or when the
    call does not supply a bind parameter of the text (this last check
    is SQLAlchemy's and comes before the store sees anything).  Tables
    carry no constraints.  Every statement takes part in the transaction
    of its connection, data definition included. *)

Definition programming_error (message : string) : exception :=
  Exc "ProgrammingError" message.

(** The merge script is not a well-formed batch.  A MERGE statement may
    have a second [WHEN MATCHED] clause only after a first one that
    carries [AND <condition>], and then one of the two must delete; the
    script has two unconditional [WHEN MATCHED ... UPDATE] clauses.  And
    [OUTPUT $action INTO] takes a table, while [@inserted] is declared
    [INT].  The batch is refused when it is compiled, before any of its
    statements runs. *)
Definition merge_rejected : exception :=
  programming_error
    "An action of type 'WHEN MATCHED' cannot appear more than once in a 'UPDATE' clause of a MERGE statement".

Definition known (cols tcols : list string) : bool :=
  forallb (λ c, bool_decide (c ∈ tcols)) cols.

(** SQL comparison: a comparison with NULL is never true. *)
Definition sql_eq (a b : value) : bool :=
  match a, b with
  | Val x, Val y => (x =? y)%Z
  | _, _ => false
  end.

Definition sql_gt (a b : value) : bool :=
  match a, b with
  | Val x, Val y => (y <? x)%Z
  | _, _ => false
  end.

(** [MAX] skips NULL and is NULL when nothing else is left. *)
Definition sql_greatest (a b : value) : value :=
  match a, b with
  | Null, _ => b
  | _, Null => a
  | Val x, Val y => Val (Z.max x y)
  end.

Definition sql_max (vs : list value) : value := foldr sql_greatest Null vs.

(** The row that [INSERT (cols) VALUES (...)] builds in a table with
    columns [tcols]: the listed columns come from [src], the others are
    NULL. *)
Definition layout (tcols cols : list string) (src : row) : row :=
  map (λ c, (c, if bool_decide (c ∈ cols) then field c src else Null)) tcols.

(** Every bind parameter of [INSERT ... VALUES (:cols)] has a value in
    every parameter dict. *)
Definition bound (cols : list string) (params : list row) : bool :=
  forallb (λ d, forallb (λ c, bool_decide (is_Some (cell c d))) cols) params.

Definition sql_execute : Engine := λ q params db,
  match q with
  | CreateIfMissing ss st ts tn =>
      match db !! (ss, st) with
      | Some _ => inr (db, [])
      | None =>
          match db !! (ts, tn) with
          | None => inl (programming_error "Invalid object name")
          | Some t =>
              inr (<[(ss, st) := {| columns := columns t; rows := [] |}]> db, [])
          end
      end
  | TruncateTable s n =>
      match db !! (s, n) with
      | None => inl (programming_error "Invalid object name")
      | Some t =>
          inr (<[(s, n) := {| columns := columns t; rows := [] |}]> db, [])
      end
  | InsertValues s n cols =>
      match cols, params with
      | [], _ =>
          (* INSERT INTO s.n () VALUES (); *)
          inl (programming_error "Incorrect syntax near ')'")
      | _ :: _, [] =>
          (* no parameter dict at all: the text is sent without values *)
          inl (Exc "StatementError" "A value is required for bind parameter")
      | _ :: _, _ :: _ =>
          if negb (bound cols params)
          then inl (Exc "StatementError" "A value is required for bind parameter")
          else
            match db !! (s, n) with
            | None => inl (programming_error "Invalid object name")
            | Some t =>
                if negb (known cols (columns t))
                then inl (programming_error "Invalid column name")
                else inr (<[(s, n) :=
                              {| columns := columns t;
                                 rows := rows t ++ map (layout (columns t) cols) params |}]> db,
                          [])
            end
      end
  | MergeScript ts tn ss st on_cols set_cols insert_cols =>
      inl merge_rejected
  | SelectMax col alias s n =>
      match db !! (s, n) with
      | None => inl (programming_error "Invalid object name")
      | Some t =>
          if bool_decide (col ∈ columns t)
          then inr (db, [[(alias, sql_max (map (field col) (rows t)))]])
          else inl (programming_error "Invalid column name")
      end
  | SelectWhereGreater s n col param =>
      match db !! (s, n) with
      | None => inl (programming_error "Invalid object name")
      | Some t =>
          if bool_decide (col ∈ columns t)
          then
            match params with
            | [d] =>
                match cell param d with
                | Some limit =>
                    inr (db, List.filter (λ r, sql_gt (field col r) limit) (rows t))
                | None =>
                    inl (Exc "StatementError" "A value is required for bind parameter")
                end
            | _ => inl (Exc "StatementError" "A value is required for bind parameter")
            end
          else inl (programming_error "Invalid column name")
      end
  end.

(** ** Stores that accept the merge script

    To follow the Python control flow past the merge statement one needs
    a store that runs the script.  The two engines below agree with
    [sql_execute] on every other statement.  They run the script the way
    its clauses are meant (join on the key columns, update the joined
    target rows, insert the source rows that join none) and differ in
    what they hand back: [merging_execute] one row with the two counters
    under the labels of the script's final [SELECT], [silent_execute] no
    row at all. *)

(** [ON target.k = source.k AND ...] *)
Definition on_match (on_cols : list string) (target source : row) : bool :=
  forallb (λ k, sql_eq (field k target) (field k source)) on_cols.

(** [UPDATE SET target.c = source.c, ...] *)
Definition assign (set_cols : list string) (source target : row) : row :=
  map (λ '(c, v), (c, if bool_decide (c ∈ set_cols) then field c source else v))
      target.

Definition merge_matched (on_cols set_cols : list string) (source : list row)
    (t : row) : row :=
  match find (on_match on_cols t) source with
  | Some s => assign set_cols s t
  | None => t
  end.

Definition not_matched (on_cols : list string) (target source : list row)
  : list row :=
  List.filter (λ s, negb (existsb (λ t, on_match on_cols t s) target)) source.

Definition matched_targets (on_cols : list string) (target source : list row)
  : list row :=
  List.filter (λ t, existsb (on_match on_cols t) source) target.

Definition merge_rows (tcols on_cols set_cols insert_cols : list string)
    (target source : list row) : list row :=
  map (merge_matched on_cols set_cols source) target
  ++ map (layout tcols insert_cols) (not_matched on_cols target source).

Definition counters (inserted updated : nat) : row :=
  [("RowsInserted", Val (Z.of_nat inserted));
   ("RowsUpdated", Val (Z.of_nat updated))].

Definition run_merge (ts tn ss st : string)
    (on_cols set_cols insert_cols : list string) (db : database)
  : exception + (database * list row) :=
  match db !! (ts, tn), db !! (ss, st) with
  | Some t, Some s =>
      if known on_cols (columns t) && known on_cols (columns s)
         && known set_cols (columns t) && known set_cols (columns s)
         && known insert_cols (columns t) && known insert_cols (columns s)
      then
        inr (<[(ts, tn) :=
                 {| columns := columns t;
                    rows := merge_rows (columns t) on_cols set_cols insert_cols
                              (rows t) (rows s) |}]> db,
             [counters (length (not_matched on_cols (rows t) (rows s)))
                       (length (matched_targets on_cols (rows t) (rows s)))])
      else inl (programming_error "Invalid column name")
  | _, _ => inl (programming_error "Invalid object name")
  end.

Definition merging_execute : Engine := λ q params db,
  match q with
  | MergeScript ts tn ss st on_cols set_cols insert_cols =>
      run_merge ts tn ss st on_cols set_cols insert_cols db
  | _ => sql_execute q params db
  end.

Definition silent_execute : Engine := λ q params db,
  match q with
  | MergeScript ts tn ss st on_cols set_cols insert_cols =>
      match run_merge ts tn ss st on_cols set_cols insert_cols db with
      | inl e => inl e
      | inr (db', _) => inr (db', [])
      end
  | _ => sql_execute q params db
  end.

(** An engine that creates, truncates and loads the staging table as
    [sql_execute] does, whatever it makes of the other statements. *)
Definition stages_like_sql (engine : Engine) : Prop :=
  ∀ q params db,
    match q with
    | CreateIfMissing _ _ _ _ | TruncateTable _ _ | InsertValues _ _ _ =>
        engine q params db = sql_execute q params db
    | _ => True
    end.

(** ** Failures inside the transaction *)

(** A failure between [begin] and [commit] of [upsert_data]: which of the
    three statements fails on the store [db1] the transaction starts
    from, and the exception it fails with. *)
Inductive step_fails (engine : Engine) (dataframe : DataFrame)
    (schema_name table_name : string) (key_columns : list string)
    (db1 : database) (e : exception) : Prop :=
| truncate_fails :
    engine (TruncateTable "staging" (staging_name schema_name table_name)) [] db1
    = inl e →
    step_fails engine dataframe schema_name table_name key_columns db1 e
| load_fails db2 r :
    engine (TruncateTable "staging" (staging_name schema_name table_name)) [] db1
    = inr (db2, r) →
    engine (InsertValues "staging" (staging_name schema_name table_name)
              (df_columns dataframe)) (to_dicts dataframe) db2
    = inl e →
    step_fails engine dataframe schema_name table_name key_columns db1 e
| merge_fails db2 r db3 r' :
    engine (TruncateTable "staging" (staging_name schema_name table_name)) [] db1
    = inr (db2, r) →
    engine (InsertValues "staging" (staging_name schema_name table_name)
              (df_columns dataframe)) (to_dicts dataframe) db2
    = inr (db3, r') →
    engine (merge_query schema_name table_name
              (staging_name schema_name table_name)
              (df_columns dataframe) key_columns) [] db3
    = inl e →
    step_fails engine dataframe schema_name table_name key_columns db1 e.

(** The spec's [UpsertError]: an exception of that class raised from the
    underlying cause.  No function of the three modules builds one. *)
Definition is_UpsertError_wrapping (cause surfaced : exception) : Prop :=
  ∃ message, surfaced = ExcFrom "UpsertError" message cause.

(** The rows the bulk insert puts into a staging table with columns
    [scols]. *)
Definition staged (scols : list string) (dataframe : DataFrame) : list row :=
  map (layout scols (df_columns dataframe)) (to_dicts dataframe).

(** The key-column tuple of a row. *)
Definition key_of (key_columns : list string) (r : row) : list value :=
  map (λ k, field k r) key_columns.

(** ** A small store to evaluate on *)

Definition orders : table :=
  {| columns := ["id"; "amt"; "ts"];
     rows := [[("id", Val 1); ("amt", Val 10); ("ts", Val 100)];
              [("id", Val 2); ("amt", Val 20); ("ts", Val 100)]] |}.

Definition example_db : database := <[("sales", "orders") := orders]> ∅.

(** [example_db] with the staging table of [sales.orders] in place,
    holding one row left from an earlier load. *)
Definition staged_db : database :=
  <[("staging", "[sales_orders]") :=
      {| columns := ["id"; "amt"; "ts"];
         rows := [[("id", Val 9); ("amt", Val 90); ("ts", Val 50)]] |}]>
    example_db.

(** One row that is in [orders] already and one that is not. *)
Definition batch_mixed : DataFrame :=
  {| df_columns := ["id"; "amt"; "ts"];
     df_rows := [[Val 1; Val 15; Val 200]; [Val 3; Val 30; Val 200]] |}.

(** A frame with a column that [orders] does not have. *)
Definition batch_unknown_column : DataFrame :=
  {| df_columns := ["id"; "amount"]; df_rows := [[Val 1; Val 15]] |}.

(** A frame with columns and no rows. *)
Definition empty_frame : DataFrame :=
  {| df_columns := ["id"; "amt"; "ts"]; df_rows := [] |}.

(** A staging table left over from an earlier shape of [orders], without
    the [ts] column. *)
Definition stale_staging_db : database :=
  <[("staging", "[sales_orders]") := {| columns := ["id"; "amt"]; rows := [] |}]>
    example_db.

(** A run-metadata table in which no run is recorded yet, and one with
    two runs recorded. *)
Definition runs_empty : table :=
  {| columns := ["table"; "last_run_datetime"]; rows := [] |}.

Definition runs_db : database := <[("meta", "runs") := runs_empty]> ∅.

Definition runs_recorded : table :=
  {| columns := ["table"; "last_run_datetime"];
     rows := [[("table", Val 1); ("last_run_datetime", Val 100)];
              [("table", Val 1); ("last_run_datetime", Val 200)]] |}.

Definition runs_recorded_db : database := <[("meta", "runs") := runs_recorded]> ∅.

(** ** The table list ([load_table_list_from_json]) *)

#[warnings="-register-all"]
Inductive json :=
| JNull
| JBool (b : bool)
| JNumber (z : Z)
| JString (s : string)
| JArray (items : list json)
| JObject (members : list (string * json)).

(** What [json.load] makes of a file: a document, or a decode error. *)
Inductive file :=
| Unparsable
| Document (config : json).

Fixpoint member (key : string) (members : list (string * json)) : option json :=
  match members with
  | [] => None
  | (k, v) :: members' => if String.eqb k key then Some v else member key members'
  end.

(** [with open(json_file, "r") as file: config = json.load(file)]
    [return config.get("tables", [])] *)
Definition load_table_list_from_json (files : gmap string file)
    (json_file : string) : exception + json :=
  match files !! json_file with
  | None => inl (Exc "FileNotFoundError" json_file)
  | Some Unparsable => inl (Exc "JSONDecodeError" json_file)
  | Some (Document config) =>
      match config with
      | JObject members => inr (default (JArray []) (member "tables" members))
      | _ => inl (Exc "AttributeError" "get")
      end
  end.

(** [table_info["key"]] *)
Definition json_subscript (j : json) (key : string) : exception + json :=
  match j with
  | JObject members =>
      match member key members with
      | Some v => inr v
      | None => inl (Exc "KeyError" key)
      end
  | _ => inl (Exc "TypeError" key)
  end.

(** Lines 69-72 of [process_tables]: the four fields read off a
    descriptor. *)
Definition table_info_fields (table_info : json)
  : exception + (json * json * json * json) :=
  match json_subscript table_info "schema" with
  | inl e => inl e
  | inr schema_name =>
      match json_subscript table_info "name" with
      | inl e => inl e
      | inr table_name =>
          match json_subscript table_info "key_columns" with
          | inl e => inl e
          | inr key_columns =>
              match json_subscript table_info "last_modified_column" with
              | inl e => inl e
              | inr last_modified_column =>
                  inr (schema_name, table_name, key_columns, last_modified_column)
              end
          end
      end
  end.

(** A config whose only descriptor has a schema and nothing else. *)
Definition config_incomplete : json :=
  JObject [("tables", JArray [JObject [("schema", JString "sales")]])].

Definition example_files : gmap string file :=
  <[("tables_config.json" : string) := Document config_incomplete]>
    (<[("broken.json" : string) := Unparsable]> ∅).

(** ** The orchestrator ([process_tables]) *)

(** [for table_info in tables]: what iterating a decoded JSON value
    yields.  A list yields its items, an object its keys, a string its
    characters; nothing else is iterable. *)
Definition iterate (j : json) : exception + list json :=
  match j with
  | JArray items => inr items
  | JObject members => inr (map (λ m, JString m.1) members)
  | JString s =>
      inr (map (λ a, JString (String a EmptyString)) (String.list_ascii_of_string s))
  | _ => inl (Exc "TypeError" "object is not iterable")
  end.

(** The body of the loop of [process_tables].  [str_of] is Python's
    [str] on a decoded JSON value, which the f-strings of lines 74-75
    apply to the schema and table names.  [process_tables.py] binds the
    name [get_new_data] with [import get_new_data], so line 84 calls a
    module object: the call raises [TypeError] and the lines after it
    are never reached.  The store that is threaded is the target's. *)
Definition process_table_info (str_of : json → string) (target_engine : Engine)
    (table_info : json) : run unit :=
  match table_info_fields table_info with
  | inl e => raise e
  | inr (schema_name, table_name, key_columns, last_modified_column) =>
      let* last_run_datetime :=
        process_tables_watermark target_engine
          (str_of schema_name) (str_of table_name) in
      raise (Exc "TypeError" "'module' object is not callable")
  end.

Fixpoint for_each {A} (body : A → run unit) (items : list A) : run unit :=
  match items with
  | [] => ret tt
  | x :: items' => let* _ := body x in for_each body items'
  end.

Definition process_tables (str_of : json → string)
    (source_engine target_engine : Engine)
    (files : gmap string file) (json_file : string) : run unit :=
  match load_table_list_from_json files json_file with
  | inl e => raise e
  | inr tables =>
      match iterate tables with
      | inl e => raise e
      | inr items => for_each (process_table_info str_of target_engine) items
      end
  end.
(** * Properties of the control flow, for every engine *)

Section AnyEngine.
Variable engine : Engine.
Variable dataframe : DataFrame.
Variables schema_name table_name : string.
Variable key_columns : list string.

(** The four statements in sequence, with the store each one sees.  The
    staging check leaves no trace: the transaction starts from the store
    the call was given. *)
Lemma upsert_data_steps db :
  upsert_data engine dataframe schema_name table_name key_columns db =
  match engine (CreateIfMissing "staging" (staging_name schema_name table_name)
                  schema_name table_name) [] db with
  | inl e => (inl e, db)
  | inr _ =>
      match engine (TruncateTable "staging"
                      (staging_name schema_name table_name)) [] db with
      | inl e => (inl e, db)
      | inr (db2, _) =>
          match engine (InsertValues "staging"
                          (staging_name schema_name table_name)
                          (df_columns dataframe)) (to_dicts dataframe) db2 with
          | inl e => (inl e, db)
          | inr (db3, _) =>
              match engine (merge_query schema_name table_name
                              (staging_name schema_name table_name)
                              (df_columns dataframe) key_columns) [] db3 with
              | inl e => (inl e, db)
              | inr (db4, result) =>
                  match read_counts result
                          {| rows_inserted := Val 0; rows_updated := Val 0 |} with
                  | inl e => (inl e, db)
                  | inr counts => (inr counts, db4)
                  end
              end
          end
      end
  end.
Proof.
  unfold upsert_data, create_staging_table_if_not_exists, uncommitted,
    transaction, bind, exec, lift, ret, raise. cbn.
  repeat match goal with
         | |- context [match engine ?q ?p ?d with _ => _ end] =>
             destruct (engine q p d) as [?|[? ?]]; cbn; try done
         end.
  by destruct (read_counts _ _).
Qed.

Lemma step_fails_outcome db db1 r e :
  engine (CreateIfMissing "staging" (staging_name schema_name table_name)
            schema_name table_name) [] db = inr (db1, r) →
  step_fails engine dataframe schema_name table_name key_columns db e →
  upsert_data engine dataframe schema_name table_name key_columns db
  = (inl e, db).
Proof.
  intros Hc Hf. rewrite upsert_data_steps, Hc.
  destruct Hf as [Ht | db2 r1 Ht Hi | db2 r1 db3 r2 Ht Hi Hm].
  - by rewrite Ht.
  - by rewrite Ht, Hi.
  - by rewrite Ht, Hi, Hm.
Qed.

(** Whatever makes the call raise, the store it leaves is the one it was
    given. *)
Lemma upsert_data_failure_store db e :
  (upsert_data engine dataframe schema_name table_name key_columns db).1 = inl e →
  (upsert_data engine dataframe schema_name table_name key_columns db).2 = db.
Proof.
  rewrite upsert_data_steps.
  repeat match goal with
         | |- context [match engine ?q ?p ?d with _ => _ end] =>
             destruct (engine q p d) as [?|[? ?]]; try done
         end.
  by destruct (read_counts _ _).
Qed.

(** The loop over the merge result raises at its first row. *)
Lemma read_counts_inr result counts counts' :
  read_counts result counts = inr counts' → result = [] ∧ counts' = counts.
Proof. destruct result as [|r result]; [by intros [= <-]|done]. Qed.

(** A call that returns has run the three statements in turn, got no row
    back from the merge, and returns the counters as they were
    initialised. *)
Lemma upsert_data_returns db counts :
  (upsert_data engine dataframe schema_name table_name key_columns db).1
  = inr counts →
  ∃ db1 r0 db2 r1 db3 r2 db4,
    engine (CreateIfMissing "staging" (staging_name schema_name table_name)
              schema_name table_name) [] db = inr (db1, r0)
    ∧ engine (TruncateTable "staging" (staging_name schema_name table_name)) [] db
      = inr (db2, r1)
    ∧ engine (InsertValues "staging" (staging_name schema_name table_name)
                (df_columns dataframe)) (to_dicts dataframe) db2 = inr (db3, r2)
    ∧ engine (merge_query schema_name table_name
                (staging_name schema_name table_name)
                (df_columns dataframe) key_columns) [] db3 = inr (db4, [])
    ∧ upsert_data engine dataframe schema_name table_name key_columns db
      = (inr {| rows_inserted := Val 0; rows_updated := Val 0 |}, db4)
    ∧ counts = {| rows_inserted := Val 0; rows_updated := Val 0 |}.
Proof.
  rewrite upsert_data_steps.
  destruct (engine (CreateIfMissing _ _ _ _) [] db) as [?|[db1 r0]] eqn:Hc;
    [done|].
  destruct (engine (TruncateTable _ _) [] db) as [?|[db2 r1]] eqn:Ht; [done|].
  destruct (engine (InsertValues _ _ _) _ db2) as [?|[db3 r2]] eqn:Hi; [done|].
  destruct (engine (merge_query _ _ _ _ _) [] db3) as [?|[db4 result]] eqn:Hm;
    [done|].
  destruct (read_counts result _) as [?|c] eqn:Hread; [done|].
  apply read_counts_inr in Hread as [-> ->].
  cbn. intros [= <-]. by eexists db1, r0, db2, r1, db3, r2, db4.
Qed.

End AnyEngine.

(** Close a decidable closed goal by evaluating its decision procedure. *)
Ltac decide_by_compute :=
  match goal with
  | |- ?P => apply (bool_decide_unpack P); vm_compute; exact I
  end.

Lemma silent_stages_like_sql : stages_like_sql silent_execute.
Proof. by intros [] params db. Qed.

Lemma sql_stages_like_sql : stages_like_sql sql_execute.
Proof. by intros [] params db. Qed.

(** * The control flow of [upsert_data] *)

(** C1. Atomicity.  Whenever [upsert_data] raises, whichever of the
    truncate, bulk-load or merge steps (or the reading of the merge
    result) failed, the target table is exactly what it was before the
    call, and so is the whole store: everything done between [begin] and
    the failure is rolled back, and the staging check before it was
    never committed. *)
Theorem upsert_data_atomic (engine : Engine) (df : DataFrame) (s t : string)
    (keys : list string) (db : database) (e : exception) :
  (upsert_data engine df s t keys db).1 = inl e →
  (upsert_data engine df s t keys db).2 !! (s, t) = db !! (s, t)
  ∧ (upsert_data engine df s t keys db).2 = db.
Proof.
  intros H. by rewrite (upsert_data_failure_store _ _ _ _ _ _ _ H).
Qed.

(** The merge has rewritten [orders] when the reading of its result
    fails; the call raises, and [orders] holds its two rows as before. *)
Lemma upsert_data_atomic_witness :
  (upsert_data merging_execute batch_mixed "sales" "orders" ["id"] staged_db).1
  = inl Row_subscript_error
  ∧ (upsert_data merging_execute batch_mixed "sales" "orders" ["id"]
       staged_db).2 !! ("sales", "orders")
    = Some orders.
Proof.
  split; [reflexivity|].
  rewrite (proj1 (upsert_data_atomic merging_execute batch_mixed
                    "sales" "orders" ["id"] staged_db
                    Row_subscript_error eq_refl)).
  reflexivity.
Defined.

(** What that failed read rolls back: the merge statement has updated
    the row with id 1, inserted the row with id 3, and handed back one
    row of counters. *)
Example merge_before_the_failed_read :
  ∃ db2 db3 db4,
    merging_execute (TruncateTable "staging" "[sales_orders]") [] staged_db
    = inr (db2, [])
    ∧ merging_execute (InsertValues "staging" "[sales_orders]" ["id"; "amt"; "ts"])
        (to_dicts batch_mixed) db2 = inr (db3, [])
    ∧ merging_execute
        (merge_query "sales" "orders" "[sales_orders]" ["id"; "amt"; "ts"] ["id"])
        [] db3 = inr (db4, [counters 1 1])
    ∧ rows <$> db4 !! ("sales", "orders")
      = Some [[("id", Val 1); ("amt", Val 15); ("ts", Val 200)];
              [("id", Val 2); ("amt", Val 20); ("ts", Val 100)];
              [("id", Val 3); ("amt", Val 30); ("ts", Val 200)]].
Proof.
  eexists _, _, _. split; [reflexivity|]. split; [reflexivity|].
  split; [reflexivity|]. by vm_compute.
Qed.

(** C5 (amended).  When the truncate, load or merge step fails with an
    exception [e], [upsert_data] rolls back and raises [e] itself: the
    caller sees the underlying exception unchanged, not a wrapper (the
    code has no [UpsertError]). *)
Theorem upsert_data_reraises (engine : Engine) (df : DataFrame) (s t : string)
    (keys : list string) (db db1 : database) (r : list row) (e : exception) :
  engine (CreateIfMissing "staging" (staging_name s t) s t) [] db = inr (db1, r) →
  step_fails engine df s t keys db e →
  (upsert_data engine df s t keys db).1 = inl e
  ∧ (upsert_data engine df s t keys db).2 = db.
Proof.
  intros Hc Hf. by rewrite (step_fails_outcome _ _ _ _ _ _ _ _ _ Hc Hf).
Qed.

Lemma upsert_data_reraises_witness :
  (upsert_data sql_execute batch_unknown_column "sales" "orders" ["id"]
     staged_db).1
  = inl (Exc "ProgrammingError" "Invalid column name").
Proof.
  refine (proj1 (upsert_data_reraises sql_execute batch_unknown_column
                   "sales" "orders" ["id"] staged_db _ []
                   (Exc "ProgrammingError" "Invalid column name") eq_refl _)).
  eapply load_fails; reflexivity.
Defined.

(** C5 as stated fails: the bulk insert fails with a [ProgrammingError],
    and what the caller gets is that [ProgrammingError], not an
    [UpsertError] raised from it. *)
Lemma raised_exception_not_wrapped :
  step_fails sql_execute batch_unknown_column "sales" "orders" ["id"]
    staged_db (Exc "ProgrammingError" "Invalid column name")
  ∧ (upsert_data sql_execute batch_unknown_column "sales" "orders" ["id"]
       staged_db).1
    = inl (Exc "ProgrammingError" "Invalid column name")
  ∧ ¬ is_UpsertError_wrapping
        (Exc "ProgrammingError" "Invalid column name")
        (Exc "ProgrammingError" "Invalid column name").
Proof.
  split; [eapply load_fails; reflexivity|].
  split; [reflexivity|]. by intros [m [=]].
Qed.



(** C2 (code bug).  The counters never carry the counts of the merge.
    The loop that is to read them subscripts a [Row] with a string,
    which raises at the first row; so a call returns only when the merge
    result has no row, and then with both counters at zero.  Whatever
    the batch, the store and the engine, a returned [UpsertResult] is
    (0, 0): for a batch with [n > 0] distinct key tuples the sum is [0],
    not [n]. *)
Theorem upsert_data_counters_stay_zero (engine : Engine) (df : DataFrame)
    (s t : string) (keys : list string) (db : database) (counts : UpsertResult) :
  (upsert_data engine df s t keys db).1 = inr counts →
  counts = {| rows_inserted := Val 0; rows_updated := Val 0 |}.
Proof.
  intros H.
  by destruct (upsert_data_returns _ _ _ _ _ _ _ H) as (?&?&?&?&?&?&?&_&_&_&_&_&->).
Qed.

(** A batch with two distinct keys, on a store that merges it: the
    result is (0, 0). *)
Lemma upsert_data_counters_stay_zero_witness :
  (upsert_data silent_execute batch_mixed "sales" "orders" ["id"] staged_db).1
  = inr {| rows_inserted := Val 0; rows_updated := Val 0 |}
  ∧ NoDup (map (key_of ["id"]) (to_dicts batch_mixed))
  ∧ length (map (key_of ["id"]) (to_dicts batch_mixed)) = 2.
Proof.
  split; [|split; [decide_by_compute|reflexivity]].
  destruct (upsert_data silent_execute batch_mixed "sales" "orders" ["id"]
              staged_db).1 as [e|counts] eqn:Hrun.
  - by vm_compute in Hrun.
  - f_equal.
    exact (upsert_data_counters_stay_zero silent_execute batch_mixed
             "sales" "orders" ["id"] staged_db counts Hrun).
Defined.

(** C3 (code bug).  Applying the same batch twice: whenever the second
    application returns, it reports [rows_updated = 0] (and
    [rows_inserted = 0]), however many rows of the batch have their key
    in the target after the first application. *)
Theorem upsert_data_twice_counters (engine : Engine) (df : DataFrame)
    (s t : string) (keys : list string) (db : database) (c1 c2 : UpsertResult) :
  (upsert_data engine df s t keys db).1 = inr c1 →
  (upsert_data engine df s t keys (upsert_data engine df s t keys db).2).1
  = inr c2 →
  rows_inserted c2 = Val 0 ∧ rows_updated c2 = Val 0.
Proof.
  intros _ H.
  by destruct (upsert_data_returns _ _ _ _ _ _ _ H) as (?&?&?&?&?&?&?&_&_&_&_&_&->).
Qed.

(** On a store that merges the batch, both keys of the batch are in
    [orders] after the first application, and the second application
    reports no updated row. *)
Lemma upsert_data_twice_counters_witness :
  ∃ tgt1 c2,
    (upsert_data silent_execute batch_mixed "sales" "orders" ["id"] staged_db).2
      !! ("sales", "orders") = Some tgt1
    ∧ Forall (λ r, key_of ["id"] r ∈ map (key_of ["id"]) (rows tgt1))
             (to_dicts batch_mixed)
    ∧ (upsert_data silent_execute batch_mixed "sales" "orders" ["id"]
         (upsert_data silent_execute batch_mixed "sales" "orders" ["id"]
            staged_db).2).1 = inr c2
    ∧ rows_updated c2 = Val 0.
Proof.
  eexists _, _. split; [reflexivity|]. split; [decide_by_compute|].
  split; [reflexivity|].
  exact (proj2 (upsert_data_twice_counters silent_execute batch_mixed
                  "sales" "orders" ["id"] staged_db _ _ eq_refl eq_refl)).
Defined.

(** * Staging: the check, the truncate and the load *)

Lemma string_length_app (a b : string) :
  String.length (a +:+ b) = String.length a + String.length b.
Proof. induction a as [|c a IH]; simpl; [done|]. by rewrite IH. Qed.


Lemma known_elem cols tcols c : known cols tcols = true → c ∈ cols → c ∈ tcols.
Proof.
  unfold known. rewrite forallb_forall. intros H Hc.
  apply list_elem_of_In in Hc. apply H in Hc. by apply bool_decide_eq_true in Hc.
Qed.

Lemma known_false cols tcols c : c ∈ cols → c ∉ tcols → known cols tcols = false.
Proof.
  intros Hc Hnot. destruct (known cols tcols) eqn:E; [|done].
  exfalso. by apply Hnot, (known_elem cols).
Qed.

Lemma cell_zip_cells c cols vs : c ∈ cols → is_Some (cell c (zip_cells cols vs)).
Proof.
  revert vs. induction cols as [|k cols IH]; intros vs Hc; [by inversion Hc|].
  simpl. destruct (String.eqb_spec k c) as [->|Hne]; [by eexists|].
  apply IH. inversion Hc; subst; [done|assumption].
Qed.

(** A frame supplies every bind parameter of its own INSERT. *)
Lemma to_dicts_bound (df : DataFrame) :
  bound (df_columns df) (to_dicts df) = true.
Proof.
  apply forallb_forall. intros d Hd. apply forallb_forall. intros c Hc.
  apply bool_decide_eq_true. unfold to_dicts in Hd.
  apply in_map_iff in Hd as (vs & <- & _).
  apply cell_zip_cells. by apply list_elem_of_In.
Qed.

(** The bulk insert into an existing staging table. *)
Lemma sql_insert_staging (df : DataFrame) (s n : string) (db : database)
    (stg : table) :
  db !! (s, n) = Some stg →
  sql_execute (InsertValues s n (df_columns df)) (to_dicts df) db
  = match df_columns df, df_rows df with
    | [], _ => inl (programming_error "Incorrect syntax near ')'")
    | _ :: _, [] =>
        inl (Exc "StatementError" "A value is required for bind parameter")
    | _ :: _, _ :: _ =>
        if known (df_columns df) (columns stg)
        then inr (<[(s, n) := {| columns := columns stg;
                                 rows := rows stg ++ staged (columns stg) df |}]> db,
                  [])
        else inl (programming_error "Invalid column name")
    end.
Proof.
  intros Hstg. cbn [sql_execute].
  pose proof (to_dicts_bound df) as Hb. unfold staged.
  destruct (df_columns df) as [|c cols] eqn:Ec; [done|].
  unfold to_dicts in *. rewrite Ec in *.
  destruct (df_rows df) as [|vs vss]; [done|].
  cbn [map] in *. rewrite Hb, Hstg. cbn [negb].
  by destruct (known (c :: cols) (columns stg)).
Qed.

Section StagesLikeSql.
Variable engine : Engine.
Hypothesis Hstage : stages_like_sql engine.
Variable df : DataFrame.
Variables s t : string.
Variable keys : list string.

Lemma stages_create (a b c d : string) (params : list row) (db : database) :
  engine (CreateIfMissing a b c d) params db
  = sql_execute (CreateIfMissing a b c d) params db.
Proof. exact (Hstage (CreateIfMissing a b c d) params db). Qed.

Lemma stages_truncate (a b : string) (params : list row) (db : database) :
  engine (TruncateTable a b) params db = sql_execute (TruncateTable a b) params db.
Proof. exact (Hstage (TruncateTable a b) params db). Qed.

Lemma stages_insert (a b : string) (cols : list string) (params : list row)
    (db : database) :
  engine (InsertValues a b cols) params db
  = sql_execute (InsertValues a b cols) params db.
Proof. exact (Hstage (InsertValues a b cols) params db). Qed.

(** Without a staging table the call fails before anything is loaded:
    at the check when the target is missing too, at the truncate
    otherwise, because what the check created was not committed. *)
Lemma upsert_data_unstaged (db : database) :
  db !! ("staging", staging_name s t) = None →
  upsert_data engine df s t keys db
  = (inl (programming_error "Invalid object name"), db).
Proof.
  intros Hstg. rewrite upsert_data_steps, stages_create, stages_truncate.
  cbn [sql_execute]. rewrite Hstg. by destruct (db !! (s, t)).
Qed.

(** With a staging table: the frame is loaded into the emptied table,
    and the merge statement sees the store in which the staging table
    holds the frame's rows and nothing else. *)
Lemma upsert_data_staged (db : database) (stg : table) :
  db !! ("staging", staging_name s t) = Some stg →
  upsert_data engine df s t keys db
  = match df_columns df, df_rows df with
    | [], _ => (inl (programming_error "Incorrect syntax near ')'"), db)
    | _ :: _, [] =>
        (inl (Exc "StatementError" "A value is required for bind parameter"), db)
    | _ :: _, _ :: _ =>
        if known (df_columns df) (columns stg)
        then
          match engine (merge_query s t (staging_name s t) (df_columns df) keys) []
                  (<[("staging", staging_name s t) :=
                       {| columns := columns stg;
                          rows := staged (columns stg) df |}]> db) with
          | inl e => (inl e, db)
          | inr (db4, result) =>
              match read_counts result
                      {| rows_inserted := Val 0; rows_updated := Val 0 |} with
              | inl e => (inl e, db)
              | inr counts => (inr counts, db4)
              end
          end
        else (inl (programming_error "Invalid column name"), db)
    end.
Proof.
  intros Hstg. rewrite upsert_data_steps, stages_create, stages_truncate.
  assert (sql_execute (CreateIfMissing "staging" (staging_name s t) s t) [] db
          = inr (db, [])) as -> by (cbn; by rewrite Hstg).
  assert (sql_execute (TruncateTable "staging" (staging_name s t)) [] db
          = inr (<[("staging", staging_name s t) :=
                     {| columns := columns stg; rows := [] |}]> db, [])) as ->
    by (cbn; by rewrite Hstg).
  rewrite stages_insert.
  rewrite (sql_insert_staging df _ _ _ {| columns := columns stg; rows := [] |})
    by apply lookup_insert_eq.
  cbn [columns rows app]. rewrite insert_insert_eq.
  destruct (df_columns df) as [|c cols]; [done|].
  destruct (df_rows df) as [|vs vss]; [done|].
  by destruct (known (c :: cols) (columns stg)).
Qed.

(** A call that returns found its staging table, and the merge went
    through on the store in which that table holds the frame. *)
Lemma upsert_data_staged_returns (db : database) (counts : UpsertResult) :
  (upsert_data engine df s t keys db).1 = inr counts →
  ∃ stg db4,
    db !! ("staging", staging_name s t) = Some stg
    ∧ engine (merge_query s t (staging_name s t) (df_columns df) keys) []
        (<[("staging", staging_name s t) :=
             {| columns := columns stg; rows := staged (columns stg) df |}]> db)
      = inr (db4, [])
    ∧ upsert_data engine df s t keys db = (inr counts, db4).
Proof.
  destruct (db !! ("staging", staging_name s t)) as [stg|] eqn:Hstg.
  2:{ by rewrite upsert_data_unstaged. }
  rewrite (upsert_data_staged db stg Hstg).
  destruct (df_columns df) as [|c cols]; [done|].
  destruct (df_rows df) as [|vs vss]; [done|].
  destruct (known (c :: cols) (columns stg)); [|done].
  destruct (engine _ [] _) as [e|[db4 result]] eqn:Hm; [done|].
  destruct (read_counts result _) as [e|c'] eqn:Hread; [done|].
  apply read_counts_inr in Hread as [-> ->]. cbn. intros [= <-].
  by exists stg, db4.
Qed.

End StagesLikeSql.

(** The merge, on a store that runs it, writes its target table only. *)
Lemma run_merge_other_tables (ts tn ss st : string)
    (on_cols set_cols insert_cols : list string) (db db' : database)
    (r : list row) (k : string * string) :
  run_merge ts tn ss st on_cols set_cols insert_cols db = inr (db', r) →
  k ≠ (ts, tn) → db' !! k = db !! k.
Proof.
  unfold run_merge. destruct (db !! (ts, tn)) as [tgt|]; [|done].
  destruct (db !! (ss, st)) as [src|]; [|done].
  destruct (_ && _); [|done]. intros [= <- _] Hk. by rewrite lookup_insert_ne.
Qed.

(** * The relational engine under [upsert_data] *)

(** On the relational engine no call of [upsert_data] returns: at the
    latest the merge script is refused, and the store is left as it
    was. *)
Lemma upsert_data_sql_raises (df : DataFrame) (s t : string) (keys : list string)
    (db : database) :
  ∃ e, upsert_data sql_execute df s t keys db = (inl e, db).
Proof.
  destruct (upsert_data sql_execute df s t keys db) as [[e|counts] db'] eqn:Hrun.
  - exists e. f_equal.
    pose proof (upsert_data_failure_store sql_execute df s t keys db e) as H.
    rewrite Hrun in H. by apply H.
  - destruct (upsert_data_returns sql_execute df s t keys db counts)
      as (?&?&?&?&?&?&?&_&_&_&Hm&_); [by rewrite Hrun|].
    by cbn in Hm.
Qed.

(** C4 (code bug).  On the relational engine no batch is ever merged.
    The script that is to update the matching target rows and insert
    the others is refused, on every store; so every call raises and
    leaves the store as it was, target table included.  When the staging
    table is there and the batch loads into it, the exception that
    surfaces is the refusal of the script. *)
Theorem upsert_data_merge_rejected (df : DataFrame) (s t : string)
    (keys : list string) (db : database) :
  (∀ params db3,
     sql_execute (merge_query s t (staging_name s t) (df_columns df) keys)
       params db3 = inl merge_rejected)
  ∧ (∃ e, upsert_data sql_execute df s t keys db = (inl e, db))
  ∧ (∀ stg,
       db !! ("staging", staging_name s t) = Some stg →
       df_columns df ≠ [] → df_rows df ≠ [] →
       known (df_columns df) (columns stg) = true →
       upsert_data sql_execute df s t keys db = (inl merge_rejected, db)).
Proof.
  split; [done|]. split; [apply upsert_data_sql_raises|].
  intros stg Hstg Hc Hr Hk.
  rewrite (upsert_data_staged sql_execute sql_stages_like_sql df s t keys db stg Hstg).
  destruct (df_columns df); [done|]. destruct (df_rows df); [done|].
  by rewrite Hk.
Qed.

(** The batch of one row to update and one to insert: nothing is merged,
    [orders] holds its two rows as before. *)
Lemma upsert_data_merge_rejected_witness :
  upsert_data sql_execute batch_mixed "sales" "orders" ["id"] staged_db
  = (inl merge_rejected, staged_db)
  ∧ staged_db !! ("sales", "orders") = Some orders.
Proof.
  split; [|reflexivity].
  apply (proj2 (proj2 (upsert_data_merge_rejected batch_mixed "sales" "orders"
                         ["id"] staged_db))
           {| columns := ["id"; "amt"; "ts"];
              rows := [[("id", Val 9); ("amt", Val 90); ("ts", Val 50)]] |});
    [reflexivity|done|done|reflexivity].
Defined.

(** * The staging table across calls *)






(** * The watermark reader and the change fetcher *)

(** The reader on any engine: a first row with cells is subscripted, and
    the subscript raises. *)
Lemma get_last_run_datetime_row (engine : Engine) (s n : string)
    (db db' : database) (c : string * value) (r : row) (others : list row) :
  engine (SelectMax "last_run_datetime" "last_run_datetime" s n) [] db
  = inr (db', (c :: r) :: others) →
  get_last_run_datetime engine s n db = (inl Row_subscript_error, db).
Proof.
  intros H. unfold get_last_run_datetime, uncommitted, bind, exec. by rewrite H.
Qed.

(** C6 (code bug).  On a table that has the [last_run_datetime] column,
    with runs recorded in it or without, the reader returns neither the
    greatest recorded timestamp nor a sentinel: the query hands back one
    row, the row is subscripted with a string, and the reader raises
    [TypeError].  It leaves the store as it was. *)
Theorem get_last_run_datetime_raises (s n : string) (db : database) (t : table) :
  db !! (s, n) = Some t →
  "last_run_datetime" ∈ columns t →
  get_last_run_datetime sql_execute s n db = (inl Row_subscript_error, db).
Proof.
  intros Ht Hc.
  apply (get_last_run_datetime_row sql_execute s n db db
           ("last_run_datetime", sql_max (map (field "last_run_datetime") (rows t)))
           [] []).
  cbn [sql_execute]. by rewrite Ht, bool_decide_eq_true_2.
Qed.

(** No run recorded, and two runs recorded: the reader raises on both. *)
Lemma get_last_run_datetime_raises_witness :
  get_last_run_datetime sql_execute "meta" "runs" runs_db
  = (inl Row_subscript_error, runs_db)
  ∧ get_last_run_datetime sql_execute "meta" "runs" runs_recorded_db
    = (inl Row_subscript_error, runs_recorded_db).
Proof.
  split.
  - apply (get_last_run_datetime_raises "meta" "runs" runs_db runs_empty eq_refl).
    apply list_elem_of_In. simpl. tauto.
  - apply (get_last_run_datetime_raises "meta" "runs" runs_recorded_db
             runs_recorded eq_refl).
    apply list_elem_of_In. simpl. tauto.
Defined.

Lemma sql_gt_nonempty (col : string) (r : row) (b : value) :
  sql_gt (field col r) b = true → r ≠ [].
Proof. by intros H ->. Qed.

(** [dict(row)] raises on the first fetched row, if there is one. *)
Lemma dicts_of_newer_rows (col : string) (b : value) (rs : list row) :
  dicts_of_rows (List.filter (λ r, sql_gt (field col r) b) rs)
  = match List.filter (λ r, sql_gt (field col r) b) rs with
    | [] => inr []
    | _ :: _ => inl dict_error
    end.
Proof.
  destruct (List.filter _ rs) as [|r l] eqn:E; [done|].
  assert (In r (List.filter (λ r, sql_gt (field col r) b) rs)) as Hin
    by (rewrite E; by left).
  apply filter_In in Hin as [_ Hgt]. apply sql_gt_nonempty in Hgt.
  by destruct r.
Qed.

(** What the change fetch does on a table that has the watermark
    column. *)
Lemma get_new_data_sql_outcome (s n col : string) (ts : datetime) (db : database)
    (t : table) :
  db !! (s, n) = Some t → col ∈ columns t →
  get_new_data sql_execute s n col ts db
  = (match List.filter (λ r, sql_gt (field col r) (Val ts)) (rows t) with
     | [] => inr {| df_columns := []; df_rows := [] |}
     | _ :: _ => inl dict_error
     end, db).
Proof.
  intros Ht Hc. unfold get_new_data, uncommitted, bind, exec, lift.
  cbn [sql_execute]. rewrite Ht, bool_decide_eq_true_2 by done.
  cbn [cell]. rewrite String.eqb_refl. cbn [fst snd].
  rewrite dicts_of_newer_rows. by destruct (List.filter _ (rows t)).
Qed.

(** C8 (code bug).  On a table that has the watermark column, as soon as
    one row is newer than [last_run_datetime] the change fetch returns
    no batch: [dict(row)] on the first fetched row raises [TypeError].
    The source store is left as it was. *)
Theorem get_new_data_raises (s n col : string) (ts : datetime) (db : database)
    (t : table) (r : row) :
  db !! (s, n) = Some t →
  col ∈ columns t →
  r ∈ rows t → sql_gt (field col r) (Val ts) = true →
  get_new_data sql_execute s n col ts db = (inl dict_error, db).
Proof.
  intros Ht Hc Hr Hgt. rewrite (get_new_data_sql_outcome s n col ts db t Ht Hc).
  destruct (List.filter _ (rows t)) as [|r0 l] eqn:E; [|done].
  exfalso. assert (In r (List.filter (λ r, sql_gt (field col r) (Val ts)) (rows t)))
    as Hin by (apply filter_In; split; [by apply list_elem_of_In|done]).
  by rewrite E in Hin.
Qed.

(** Both rows of [orders] (watermark 100) are newer than 99. *)
Lemma get_new_data_raises_witness :
  get_new_data sql_execute "sales" "orders" "ts" 99%Z example_db
  = (inl dict_error, example_db).
Proof.
  apply (get_new_data_raises "sales" "orders" "ts" 99%Z example_db orders
           [("id", Val 1); ("amt", Val 10); ("ts", Val 100)] eq_refl).
  - apply list_elem_of_In. simpl. tauto.
  - apply list_elem_of_In. simpl. tauto.
  - reflexivity.
Defined.

(** * The config loader *)

(** C9 (amended).  The loader raises [FileNotFoundError] when the file
    is missing and [JSONDecodeError] when it does not parse; it never
    raises a [ConfigError].  Given a JSON object it returns whatever is
    under ["tables"], unchanged and in order (the empty list when the key
    is absent), without looking into the descriptors: a descriptor that
    lacks one of ["schema"], ["name"], ["key_columns"],
    ["last_modified_column"] is returned like any other, and the missing
    field shows only when [process_tables] reads it, as a [KeyError]. *)
Theorem load_table_list_from_json_spec (files : gmap string file)
    (json_file : string) :
  (files !! json_file = None →
   load_table_list_from_json files json_file
   = inl (Exc "FileNotFoundError" json_file))
  ∧ (files !! json_file = Some Unparsable →
     load_table_list_from_json files json_file
     = inl (Exc "JSONDecodeError" json_file))
  ∧ (∀ members,
       files !! json_file = Some (Document (JObject members)) →
       load_table_list_from_json files json_file
       = inr (default (JArray []) (member "tables" members)))
  ∧ (∀ e, load_table_list_from_json files json_file = inl e →
          exc_type e ≠ "ConfigError")
  ∧ (∀ descriptor key,
       key ∈ ["schema"; "name"; "key_columns"; "last_modified_column"] →
       member key descriptor = None →
       ∃ missing, table_info_fields (JObject descriptor) = inl (Exc "KeyError" missing)).
Proof.
  unfold load_table_list_from_json.
  split; [by intros ->|]. split; [by intros ->|]. split; [by intros ? ->|].
  split.
  - intros e. destruct (files !! json_file) as [[|[]]|]; by intros [= <-].
  - intros descriptor key Hkey Hnone. unfold table_info_fields, json_subscript.
    repeat match goal with
           | |- context [member ?k descriptor] =>
               destruct (member k descriptor) eqn:?; [|by eexists]
           end.
    exfalso. apply list_elem_of_In in Hkey. simpl in Hkey.
    destruct Hkey as [<-|[<-|[<-|[<-|[]]]]]; congruence.
Qed.

Lemma load_table_list_from_json_spec_witness :
  load_table_list_from_json example_files "absent.json"
  = inl (Exc "FileNotFoundError" "absent.json")
  ∧ load_table_list_from_json example_files "broken.json"
    = inl (Exc "JSONDecodeError" "broken.json")
  ∧ load_table_list_from_json example_files "tables_config.json"
    = inr (JArray [JObject [("schema", JString "sales")]])
  ∧ ∃ missing,
      table_info_fields (JObject [("schema", JString "sales")])
      = inl (Exc "KeyError" missing).
Proof.
  pose proof (load_table_list_from_json_spec example_files "absent.json")
    as (Habsent & _).
  pose proof (load_table_list_from_json_spec example_files "broken.json")
    as (_ & Hbroken & _).
  pose proof (load_table_list_from_json_spec example_files "tables_config.json")
    as (_ & _ & Hdoc & _ & Hfields).
  split; [exact (Habsent eq_refl)|]. split; [exact (Hbroken eq_refl)|].
  split; [exact (Hdoc _ eq_refl)|].
  apply (Hfields _ "name"); [|reflexivity].
  apply list_elem_of_In. simpl. tauto.
Defined.

(** C9 as stated fails: a descriptor without table name, key columns and
    watermark column is loaded without any error, and a missing file is
    reported as [FileNotFoundError], not as a [ConfigError]. *)
Lemma incomplete_descriptor_loaded :
  load_table_list_from_json example_files "tables_config.json"
  = inr (JArray [JObject [("schema", JString "sales")]])
  ∧ load_table_list_from_json example_files "absent.json"
    = inl (Exc "FileNotFoundError" "absent.json")
  ∧ exc_type (Exc "FileNotFoundError" "absent.json") ≠ "ConfigError".
Proof. split; [reflexivity|]. split; [reflexivity|]. by intros [=]. Qed.

(** * Further properties of the three modules *)

(** ** [create_staging_table_if_not_exists] *)

(** X1.  A staging table that is missing stays missing: what the check
    creates is never committed, so the transaction that follows finds no
    table to truncate.  A call of [upsert_data] for a target whose
    staging table does not exist yet raises the store's "invalid object"
    error and leaves the store as it was. *)
Theorem upsert_data_missing_staging (engine : Engine) (df : DataFrame)
    (s t : string) (keys : list string) (db : database) :
  stages_like_sql engine →
  db !! ("staging", staging_name s t) = None →
  (create_staging_table_if_not_exists engine s t "staging"
     (staging_name s t) db).2 !! ("staging", staging_name s t) = None
  ∧ upsert_data engine df s t keys db
    = (inl (programming_error "Invalid object name"), db).
Proof.
  intros Hstage Hstg. split; [done|]. by apply upsert_data_unstaged.
Qed.

Lemma upsert_data_missing_staging_witness :
  upsert_data sql_execute batch_mixed "sales" "orders" ["id"] example_db
  = (inl (programming_error "Invalid object name"), example_db).
Proof.
  apply (upsert_data_missing_staging sql_execute batch_mixed "sales" "orders"
           ["id"] example_db sql_stages_like_sql).
  reflexivity.
Defined.

(** X2.  The staging check raises exactly when neither the staging table
    nor the target table exists; the exception is the store's "invalid
    object" error and the store is left as it was. *)
Theorem create_staging_table_fails_iff (ts tn ss sn : string) (db : database) :
  ((∃ e, (create_staging_table_if_not_exists sql_execute ts tn ss sn db).1 = inl e)
   ↔ db !! (ss, sn) = None ∧ db !! (ts, tn) = None)
  ∧ ∀ e, (create_staging_table_if_not_exists sql_execute ts tn ss sn db).1 = inl e →
         e = programming_error "Invalid object name"
         ∧ (create_staging_table_if_not_exists sql_execute ts tn ss sn db).2 = db.
Proof.
  unfold create_staging_table_if_not_exists, uncommitted, bind, exec, ret.
  cbn [sql_execute].
  destruct (db !! (ss, sn)) as [old|]; cbn.
  - split; [|done]. split; [by intros [e [=]]|by intros [[=] _]].
  - destruct (db !! (ts, tn)) as [tgt|]; cbn.
    + split; [|done]. split; [by intros [e [=]]|by intros [_ [=]]].
    + split; [split; [done|by eexists]|]. by intros e [= <-].
Qed.

(** ** [upsert_data] and its staging table *)

(** X3.  A frame without rows is not a no-op: with the staging table in
    place, its INSERT is sent without any parameter values and
    [upsert_data] raises [StatementError]; a frame without columns
    makes the INSERT ill-formed and [upsert_data] raises
    [ProgrammingError].  In both cases the store is left as it was. *)
Theorem upsert_data_empty_frame (engine : Engine) (df : DataFrame) (s t : string)
    (keys : list string) (db : database) (stg : table) :
  stages_like_sql engine →
  db !! ("staging", staging_name s t) = Some stg →
  (df_columns df = [] →
   upsert_data engine df s t keys db
   = (inl (programming_error "Incorrect syntax near ')'"), db))
  ∧ (df_columns df ≠ [] → df_rows df = [] →
     upsert_data engine df s t keys db
     = (inl (Exc "StatementError" "A value is required for bind parameter"), db)).
Proof.
  intros Hstage Hstg. rewrite (upsert_data_staged engine Hstage df s t keys db stg Hstg).
  split.
  - by intros ->.
  - intros Hc ->. by destruct (df_columns df).
Qed.

Lemma upsert_data_empty_frame_witness :
  upsert_data silent_execute empty_frame "sales" "orders" ["id"] staged_db
  = (inl (Exc "StatementError" "A value is required for bind parameter"),
     staged_db).
Proof.
  apply (proj2 (upsert_data_empty_frame silent_execute empty_frame
                  "sales" "orders" ["id"] staged_db
                  {| columns := ["id"; "amt"; "ts"];
                     rows := [[("id", Val 9); ("amt", Val 90); ("ts", Val 50)]] |}
                  silent_stages_like_sql eq_refl));
    [done|reflexivity].
Defined.

(** X4.  Whether it returns or raises, [upsert_data] changes no table
    other than the target and its staging table: the truncate and the
    load write the staging table, and a merge statement that writes
    nothing but its target leaves every other table as it was. *)
Theorem upsert_data_other_tables (engine : Engine) (df : DataFrame) (s t : string)
    (keys : list string) (db : database) (k : string * string) :
  stages_like_sql engine →
  (∀ d d' r,
     engine (merge_query s t (staging_name s t) (df_columns df) keys) [] d
     = inr (d', r) →
     ∀ k', k' ≠ (s, t) → d' !! k' = d !! k') →
  k ≠ (s, t) → k ≠ ("staging", staging_name s t) →
  (upsert_data engine df s t keys db).2 !! k = db !! k.
Proof.
  intros Hstage Hmerge Hkt Hks.
  destruct (upsert_data engine df s t keys db).1 as [e|counts] eqn:Hrun.
  - by rewrite (upsert_data_failure_store _ _ _ _ _ _ _ Hrun).
  - destruct (upsert_data_staged_returns engine Hstage df s t keys db counts Hrun)
      as (stg & db4 & Hstg & Hm & ->).
    cbn [snd]. rewrite (Hmerge _ _ _ Hm k Hkt). by rewrite lookup_insert_ne.
Qed.

(** A run that merges the batch and returns: the run-metadata table next
    to [orders] is as it was. *)
Lemma upsert_data_other_tables_witness :
  (upsert_data silent_execute batch_mixed "sales" "orders" ["id"]
     (<[("meta", "runs") := runs_empty]> staged_db)).1
  = inr {| rows_inserted := Val 0; rows_updated := Val 0 |}
  ∧ (upsert_data silent_execute batch_mixed "sales" "orders" ["id"]
       (<[("meta", "runs") := runs_empty]> staged_db)).2 !! ("meta", "runs")
    = Some runs_empty.
Proof.
  split; [reflexivity|].
  rewrite (upsert_data_other_tables silent_execute batch_mixed "sales" "orders"
             ["id"] (<[("meta", "runs") := runs_empty]> staged_db)
             ("meta", "runs") silent_stages_like_sql).
  - reflexivity.
  - intros d d' r Hm k' Hk'. cbn in Hm.
    destruct (run_merge _ _ _ _ _ _ _ d) as [e|[d1 r1]] eqn:E; [done|].
    injection Hm as <- _. by eapply run_merge_other_tables.
  - by intros [=].
  - by intros [=].
Defined.

(** X11.  A staging table that exists is never re-shaped.  If the frame
    has a column that the existing staging table lacks, [upsert_data]
    raises, whatever the target table looks like, and leaves the whole
    store as it was. *)
Theorem upsert_data_stale_staging (engine : Engine) (df : DataFrame) (s t : string)
    (keys : list string) (db : database) (stg : table) (c : string) :
  stages_like_sql engine →
  db !! ("staging", staging_name s t) = Some stg →
  c ∈ df_columns df → c ∉ columns stg →
  ∃ e, upsert_data engine df s t keys db = (inl e, db).
Proof.
  intros Hstage Hstg Hc Hnot.
  rewrite (upsert_data_staged engine Hstage df s t keys db stg Hstg).
  rewrite (known_false _ _ c Hc Hnot).
  destruct (df_columns df); [by eexists|]. destruct (df_rows df); by eexists.
Qed.

Lemma upsert_data_stale_staging_witness :
  ∃ e, upsert_data sql_execute batch_mixed "sales" "orders" ["id"] stale_staging_db
       = (inl e, stale_staging_db).
Proof.
  apply (upsert_data_stale_staging sql_execute batch_mixed "sales" "orders" ["id"]
           stale_staging_db {| columns := ["id"; "amt"]; rows := [] |} "ts"
           sql_stages_like_sql).
  - reflexivity.
  - apply list_elem_of_In. simpl. tauto.
  - intros H. apply list_elem_of_In in H. simpl in H.
    destruct H as [[=]|[[=]|[]]].
Defined.

(** ** The loop over the merge result *)

(** X9.  If the merge statement hands back any row at all, the call
    raises [TypeError] at [row["RowsInserted"]], although the merge
    itself went through, and the transaction is rolled back: the store
    is the one the call was given. *)
Theorem upsert_data_result_row_raises (engine : Engine) (df : DataFrame)
    (s t : string) (keys : list string)
    (db db1 db2 db3 db4 : database) (r0 r1 r2 : list row)
    (first : row) (others : list row) :
  engine (CreateIfMissing "staging" (staging_name s t) s t) [] db = inr (db1, r0) →
  engine (TruncateTable "staging" (staging_name s t)) [] db = inr (db2, r1) →
  engine (InsertValues "staging" (staging_name s t) (df_columns df))
         (to_dicts df) db2 = inr (db3, r2) →
  engine (merge_query s t (staging_name s t) (df_columns df) keys) [] db3
  = inr (db4, first :: others) →
  upsert_data engine df s t keys db = (inl Row_subscript_error, db).
Proof.
  intros Hc Ht Hi Hm. by rewrite upsert_data_steps, Hc, Ht, Hi, Hm.
Qed.

Lemma upsert_data_result_row_raises_witness :
  upsert_data merging_execute batch_mixed "sales" "orders" ["id"] staged_db
  = (inl Row_subscript_error, staged_db).
Proof.
  eapply (upsert_data_result_row_raises merging_execute batch_mixed
            "sales" "orders" ["id"] staged_db);
    reflexivity.
Defined.

Lemma string_app_assoc (a b c : string) : (a +:+ b) +:+ c = a +:+ (b +:+ c).
Proof.
  induction a as [|x a IH]; [done|].
  change (String x ((a +:+ b) +:+ c) = String x (a +:+ b +:+ c)). by rewrite IH.
Qed.

(** X12.  The staging table's name does not tell targets apart: the
    target [a_b.c] and the different target [a.b_c] are staged in the
    same table. *)
Theorem staging_name_shared (a b c : string) :
  staging_name (a +:+ "_" +:+ b) c = staging_name a (b +:+ "_" +:+ c)
  ∧ (a +:+ "_" +:+ b, c) ≠ (a, b +:+ "_" +:+ c).
Proof.
  split.
  - unfold staging_name. by rewrite !string_app_assoc.
  - intros [= H _]. apply (f_equal String.length) in H.
    rewrite !string_length_app in H. simpl in H. lia.
Qed.

(** ** [get_new_data] and [get_last_run_datetime] *)

(** X13.  On the relational engine [get_new_data] never writes, whether
    it returns or raises, and it raises exactly when the table does not
    exist, or lacks the watermark column, or holds a row that is newer
    than the bound. *)
Theorem get_new_data_read_only (s n col : string) (ts : datetime) (db : database) :
  (get_new_data sql_execute s n col ts db).2 = db
  ∧ ((∃ e, (get_new_data sql_execute s n col ts db).1 = inl e)
     ↔ db !! (s, n) = None
       ∨ ∃ t, db !! (s, n) = Some t
              ∧ (col ∉ columns t
                 ∨ ∃ r, r ∈ rows t ∧ sql_gt (field col r) (Val ts) = true)).
Proof.
  split; [done|].
  destruct (db !! (s, n)) as [t|] eqn:Ht.
  2:{ split; [by left|]. intros _.
      unfold get_new_data, uncommitted, bind, exec. cbn [sql_execute].
      rewrite Ht. by eexists. }
  destruct (decide (col ∈ columns t)) as [Hc|Hc].
  2:{ split; [intros _; right; exists t; by split; [|left]|]. intros _.
      unfold get_new_data, uncommitted, bind, exec. cbn [sql_execute].
      rewrite Ht, bool_decide_eq_false_2 by done. by eexists. }
  rewrite (get_new_data_sql_outcome s n col ts db t Ht Hc). cbn [fst].
  destruct (List.filter _ (rows t)) as [|r0 l] eqn:E.
  - split; [by intros [e [=]]|].
    intros [[=]|(t' & [= <-] & [Hnot|(r & Hr & Hgt)])]; [done|].
    assert (In r (List.filter (λ r, sql_gt (field col r) (Val ts)) (rows t)))
      as Hin by (apply filter_In; split; [by apply list_elem_of_In|done]).
    by rewrite E in Hin.
  - split; [|by eexists]. intros _. right. exists t. split; [done|]. right.
    assert (In r0 (List.filter (λ r, sql_gt (field col r) (Val ts)) (rows t)))
      as Hin by (rewrite E; by left).
    apply filter_In in Hin as [Hin Hgt]. exists r0.
    split; [by apply list_elem_of_In|done].
Qed.

(** X14.  Whatever the store, the reader never returns a timestamp: it
    returns [None] (when no row is fetched) or it raises.  So the
    watermark that [process_tables] computes, when it computes one, is
    [datetime.min], whatever runs are recorded.  The reader never
    writes. *)
Theorem get_last_run_datetime_returns_None (engine : Engine) (s n : string)
    (db : database) :
  (∀ w, (get_last_run_datetime engine s n db).1 = inr w → w = None)
  ∧ (∀ ts, (process_tables_watermark engine s n db).1 = inr ts →
           ts = datetime_min)
  ∧ (get_last_run_datetime engine s n db).2 = db.
Proof.
  assert (∀ a b w, (get_last_run_datetime engine a b db).1 = inr w → w = None)
    as Hreader.
  { intros a b w. unfold get_last_run_datetime, uncommitted, bind, exec.
    destruct (engine _ [] db) as [e|[db' [|[|c r] others]]]; cbn; try done;
      by intros [= <-]. }
  split; [apply Hreader|]. split; [|done].
  intros ts. unfold process_tables_watermark, bind.
  destruct (get_last_run_datetime engine _ _ db) as [[e|w] db'] eqn:E; [done|].
  rewrite (Hreader _ _ w) by by rewrite E. by intros [= <-].
Qed.








(** ** The descriptors and the orchestrator *)

(** X18.  [process_tables] can read a descriptor exactly when it has
    the four keys ["schema"], ["name"], ["key_columns"] and
    ["last_modified_column"].  A descriptor with the keys that the
    docstring of [load_table_list_from_json] lists (a ["schema"] but no
    ["name"]) fails with [KeyError: 'name']. *)
Theorem table_info_fields_keys (members : list (string * json)) :
  ((∃ fields, table_info_fields (JObject members) = inr fields)
   ↔ is_Some (member "schema" members) ∧ is_Some (member "name" members)
     ∧ is_Some (member "key_columns" members)
     ∧ is_Some (member "last_modified_column" members))
  ∧ (is_Some (member "schema" members) → member "name" members = None →
     table_info_fields (JObject members) = inl (Exc "KeyError" "name")).
Proof.
  unfold table_info_fields, json_subscript.
  destruct (member "schema" members) as [v1|].
  2:{ split; [|by intros [? [=]]]. split; [by intros [? [=]]|].
      by intros [[? [=]] _]. }
  destruct (member "name" members) as [v2|].
  2:{ split; [|done]. split; [by intros [? [=]]|]. by intros (_ & [? [=]] & _). }
  destruct (member "key_columns" members) as [v3|].
  2:{ split; [|done]. split; [by intros [? [=]]|].
      by intros (_ & _ & [? [=]] & _). }
  destruct (member "last_modified_column" members) as [v4|].
  2:{ split; [|done]. split; [by intros [? [=]]|].
      by intros (_ & _ & _ & [? [=]]). }
  split; [|done]. split; [|by eexists]. intros _. by repeat split.
Qed.

Lemma get_last_run_datetime_sql_store (s n : string) (db : database) :
  (get_last_run_datetime sql_execute s n db).2 = db.
Proof. done. Qed.

Lemma process_table_info_raises (str_of : json → string) (engine : Engine)
    (table_info : json) (db : database) :
  ∃ e, (process_table_info str_of engine table_info db).1 = inl e.
Proof.
  unfold process_table_info.
  destruct (table_info_fields table_info) as [e|[[[sc na] ke] la]]; [by eexists|].
  unfold bind. destruct (process_tables_watermark _ _ _ db) as [[e|w] db'];
    by eexists.
Qed.

(** X19.  [process_tables] runs to its end only when there is nothing to
    iterate: the config loads and what it holds under ["tables"] is
    empty.  With anything to process it raises at its first descriptor,
    at the latest when line 84 calls the module [get_new_data]; no change
    is ever fetched and no upsert is ever made. *)
Theorem process_tables_returns_iff (str_of : json → string)
    (source_engine target_engine : Engine) (files : gmap string file)
    (json_file : string) (db : database) :
  (process_tables str_of source_engine target_engine files json_file db).1
  = inr tt
  ↔ ∃ tables, load_table_list_from_json files json_file = inr tables
              ∧ iterate tables = inr [].
Proof.
  unfold process_tables.
  destruct (load_table_list_from_json files json_file) as [e|tables].
  { split; [done|]. by intros (? & [=] & _). }
  destruct (iterate tables) as [e|items] eqn:E.
  { split; [done|]. intros (? & [= <-] & H). by rewrite E in H. }
  destruct items as [|x items].
  - split; [|done]. intros _. by exists tables.
  - split.
    + simpl. unfold bind.
      destruct (process_table_info_raises str_of target_engine x db) as [e He].
      destruct (process_table_info _ _ x db) as [[e'|u] db']; [done|].
      by simpl in He.
    + intros (? & [= <-] & H). by rewrite E in H.
Qed.

(** X20.  On the relational engine [process_tables] never changes the
    target store: whatever it does before it stops, it only reads. *)
Theorem process_tables_store (str_of : json → string) (source_engine : Engine)
    (files : gmap string file) (json_file : string) (db : database) :
  (process_tables str_of source_engine sql_execute files json_file db).2 = db.
Proof.
  unfold process_tables.
  destruct (load_table_list_from_json files json_file) as [e|tables]; [done|].
  destruct (iterate tables) as [e|items]; [done|].
  destruct items as [|x items]; [done|]. simpl. unfold bind.
  assert ((process_table_info str_of sql_execute x db).2 = db) as Hstore.
  { unfold process_table_info.
    destruct (table_info_fields x) as [e|[[[sc na] ke] la]]; [done|].
    unfold bind, process_tables_watermark, bind.
    pose proof (get_last_run_datetime_sql_store
                  ("[" +:+ str_of sc +:+ "]") ("[" +:+ str_of na +:+ "]") db) as H.
    destruct (get_last_run_datetime _ _ _ db) as [[e|[w|]] db']; by simpl in *. }
  destruct (process_table_info_raises str_of sql_execute x db) as [e He].
  destruct (process_table_info _ _ x db) as [[e'|u] db']; [done|].
  by simpl in He.
Qed.
